(** * Portfolio widgets: the numeric and simulation core of [src/App.js]

    Shallow embedding of the four interactive components of the page
    ([FractalExplorer], [ProbabilitySimulator], [GameTheory], [TopologyViz]).

    JavaScript numbers are IEEE 754 binary64 values.  The quantities that the
    code only ever uses as counters (loop index, iteration bound, trial and
    score counters, rotation angle, pixel coordinates) are modelled as [Z],
    which is exact below 2^53; the quantities that are genuinely fractional
    (complex samples, ratios, bar heights, hue) are modelled with Rocq's
    primitive binary64 floats, which compute bit for bit what the JavaScript
    arithmetic computes.

    React state: a component function is run once per render and reads the
    current state into local constants; the event handlers it defines close
    over those constants.  A handler does not write the state, it enqueues
    updates ([setX (v)] or [setX (old => new)]) that React applies in order.
    Accordingly every handler below takes the render it was created by as an
    argument and returns a queue of updaters; [commit] applies the queue. *)

From Stdlib Require Import ZArith List Bool String Lia.
From Stdlib Require Import Floats.
Import ListNotations.

Local Open Scope Z_scope.

(** A JavaScript number holding the integer [n]. *)
Definition js_num (n : Z) : float :=
  match n with
  | Z0 => 0%float
  | Zpos _ => PrimFloat.of_uint63 (Uint63.of_Z n)
  | Zneg p => (- PrimFloat.of_uint63 (Uint63.of_Z (Zpos p)))%float
  end.

(** The update queue of one handler call, applied oldest first. *)
Definition commit {S : Type} (queue : list (S -> S)) (s : S) : S :=
  fold_left (fun acc upd => upd acc) queue s.

(** [l.slice(-n)] for [n > 0]: the last [n] elements, all of [l] if shorter. *)
Definition slice_last {A : Type} (n : nat) (l : list A) : list A :=
  skipn (List.length l - n) l.

(** ** 01 - Fractals *)
Module Fractal.

(** [canvas.width] and [canvas.height] of the 400 x 400 canvas element. *)
Definition width : Z := 400.
Definition height : Z := 400.

(** The variables of the inner [while] loop. *)
Record orbit := { zx : float; zy : float; i : Z }.

Definition cx (zoom : float) (x : Z) : float :=
  ((js_num x - js_num width / 2) / (js_num width / 4) / zoom - 0.5)%float.

Definition cy (zoom : float) (y : Z) : float :=
  ((js_num y - js_num height / 2) / (js_num height / 4) / zoom)%float.

(** [zx * zx + zy * zy], the squared modulus of [z]. *)
Definition norm2 (o : orbit) : float := (zx o * zx o + zy o * zy o)%float.

(** The loop condition [zx * zx + zy * zy < 4 && i < iterations]. *)
Definition guard (iterations : Z) (o : orbit) : bool :=
  (norm2 o <? 4)%float && (i o <? iterations).

(** One execution of the loop body: [z <- z * z + c], [i++]. *)
Definition body (cx cy : float) (o : orbit) : orbit :=
  let temp := (zx o * zx o - zy o * zy o + cx)%float in
  {| zx := temp; zy := (2 * zx o * zy o + cy)%float; i := i o + 1 |}.

(** The [while] loop, run for at most [fuel] turns. *)
Fixpoint while (fuel : nat) (iterations : Z) (cx cy : float) (o : orbit) : orbit :=
  match fuel with
  | O => o
  | S fuel' =>
      if guard iterations o
      then while fuel' iterations cx cy (body cx cy o)
      else o
  end.

(** [let zx = 0, zy = 0; let i = 0]. *)
Definition start : orbit := {| zx := 0; zy := 0; i := 0 |}.

(** The loop of pixel [(x, y)]; [iterations] turns of fuel always suffice
    (lemma [while_exits]). *)
Definition escape (zoom : float) (iterations : Z) (x y : Z) : orbit :=
  while (Z.to_nat iterations) iterations (cx zoom x) (cy zoom y) start.

(** The state of the loop of pixel [(x, y)] after [k] executions of the body. *)
Definition orbit_at (zoom : float) (x y : Z) (k : nat) : orbit :=
  Nat.iter k (body (cx zoom x) (cy zoom y)) start.

(** The three components of [ctx.fillStyle = hsl(hue, saturation%, lightness%)]. *)
Record hsl := { hue : float; saturation : Z; lightness : Z }.

Definition colour (iterations : Z) (count : Z) : hsl :=
  {| hue := (js_num count / js_num iterations * 360)%float;
     saturation := if count <? iterations then 100 else 0;
     lightness := if count <? iterations then 50 else 0 |}.

Definition pixel (zoom : float) (iterations : Z) (x y : Z) : hsl :=
  colour iterations (i (escape zoom iterations x y)).

(** Black is [hsl(_, 0%, 0%)]. *)
Definition black (c : hsl) : Prop := saturation c = 0 /\ lightness c = 0.

(** The values of [k] in a loop [for (let k = 0; k < n; k++)]. *)
Definition upto (n : Z) : list Z := map Z.of_nat (seq 0 (Z.to_nat n)).

(** One [ctx.fillRect (x, y, 1, 1)] together with the [fillStyle] set for it. *)
Record fillRect := {
  rect_x : Z; rect_y : Z; rect_w : Z; rect_h : Z; fillStyle : hsl
}.

(** The drawing effect (once the canvas is mounted): the [fillRect] calls of
    the two nested loops, in the order they are made. *)
Definition paint (zoom : float) (iterations : Z) : list fillRect :=
  flat_map
    (fun x =>
       map (fun y => {| rect_x := x; rect_y := y; rect_w := 1; rect_h := 1;
                        fillStyle := pixel zoom iterations x y |})
           (upto height))
    (upto width).

(** What the two range inputs can deliver: [parseFloat] of a value between
    [min="1"] and [max="10"] in steps of 0.5, and [parseInt] of a value
    between [min="10"] and [max="150"] in steps of 10. *)
Definition zoom_values : list float :=
  [1; 1.5; 2; 2.5; 3; 3.5; 4; 4.5; 5; 5.5; 6; 6.5; 7; 7.5; 8; 8.5; 9; 9.5;
   10]%float.

Definition iterations_values : list Z :=
  [10; 20; 30; 40; 50; 60; 70; 80; 90; 100; 110; 120; 130; 140; 150].

End Fractal.

(** ** 02 - Probability *)
Module Probability.

Record state := { trials : Z; heads : Z; history : list float }.

(** [useState(0)], [useState(0)], [useState([])]. *)
Definition initial : state := {| trials := 0; heads := 0; history := [] |}.

Definition setTrials (f : Z -> Z) (s : state) : state :=
  {| trials := f (trials s); heads := heads s; history := history s |}.

Definition setHeads (f : Z -> Z) (s : state) : state :=
  {| trials := trials s; heads := f (heads s); history := history s |}.

Definition setHistory (f : list float -> list float) (s : state) : state :=
  {| trials := trials s; heads := heads s; history := f (history s) |}.

Section Render.

(** The state this render read: the [trials] and [heads] its handlers see. *)
Variable r : state.

Definition newRatio (result : bool) : float :=
  if result
  then (js_num (heads r + 1) / js_num (trials r + 1))%float
  else (js_num (heads r) / js_num (trials r + 1))%float.

(** [rnd] is the value returned by [Math.random()]. *)
Definition runTrial (rnd : float) : list (state -> state) :=
  let result := (0.5 <? rnd)%float in
  [setTrials (fun t => t + 1)]
    ++ (if result then [setHeads (fun h => h + 1)] else [])
    ++ [setHistory (fun h => slice_last 50 h ++ [newRatio result])].

(** The timers set by [runMany]: delay and callback, in firing order.  Every
    callback calls the [runTrial] of this render. *)
Definition runMany : list (Z * (float -> list (state -> state))) :=
  map (fun k => (Z.of_nat k * 10, runTrial)) (seq 0 100).

(** [setX (v)] with a plain value is the updater that ignores the old one. *)
Definition reset : list (state -> state) :=
  [setTrials (fun _ => 0); setHeads (fun _ => 0); setHistory (fun _ => [])].

End Render.

(** A click on "Flip Once": the handler of the render of the current state. *)
Definition click_flip_once (rnd : float) (s : state) : state :=
  commit (runTrial s rnd) s.

(** A click on "Reset". *)
Definition click_reset (s : state) : state := commit reset s.

(** The timers of one "Flip 100x" click, made by render [r], firing in order
    from state [s]; the k-th timer draws the k-th number of [rnds].  The
    component renders again after each of them, but the callbacks were built
    once, by [r], and keep calling its [runTrial]. *)
Definition burst (r : state) (rnds : list float) (s : state) : state :=
  fold_left (fun acc timer => commit (snd (fst timer) (snd timer)) acc)
            (combine (runMany r) rnds) s.

(** What the render draws for one history entry: the height of its bar in
    pixels and the hue of its colour. *)
Definition deviation (val : float) : float := PrimFloat.abs (val - 0.5)%float.

Definition prob_bar (val : float) : float * float :=
  ((deviation val * 500)%float, (220 - deviation val * 500)%float).

(** Everything that can happen to the component: a click on "Flip Once", one
    of the timers of a "Flip 100x" click made at render [r] firing, a click on
    "Reset".  [rnd] is the number [Math.random()] returns in the call. *)
Inductive event :=
| FlipOnce (rnd : float)
| Timer (r : state) (rnd : float)
| Reset.

Definition handle (e : event) (s : state) : state :=
  match e with
  | FlipOnce rnd => click_flip_once rnd s
  | Timer r rnd => commit (runTrial r rnd) s
  | Reset => click_reset s
  end.

Definition run (es : list event) (s : state) : state :=
  fold_left (fun acc e => handle e acc) es s.

(** The events that call [runTrial], and those among them that draw heads. *)
Definition is_trial (e : event) : bool :=
  match e with FlipOnce _ | Timer _ _ => true | Reset => false end.

Definition draws_heads (e : event) : bool :=
  match e with
  | FlipOnce rnd | Timer _ rnd => (0.5 <? rnd)%float
  | Reset => false
  end.

(** The ratios appended since the last reset, oldest first, along a run that
    starts in state [s] with [acc] already appended. *)
Fixpoint appended (es : list event) (s : state) (acc : list float) : list float :=
  match es with
  | [] => acc
  | e :: es' =>
      appended es' (handle e s)
        match e with
        | FlipOnce rnd => acc ++ [newRatio s (0.5 <? rnd)%float]
        | Timer r rnd => acc ++ [newRatio r (0.5 <? rnd)%float]
        | Reset => []
        end
  end.

End Probability.

(** ** 03 - Game Theory *)
Module GameTheory.

(** The argument of [play]: the two buttons pass ['cooperate'] and ['defect']. *)
Inductive move := cooperate | defect.

Record points := { you : Z; opponent : Z }.

Record state := {
  yourChoice : option move;
  opponentChoice : option move;
  scores : points;
  rounds : Z;
  opponentStrategy : string;
  lastOpponentMove : option move
}.

(** The state at mount. *)
Definition initial : state :=
  {| yourChoice := None; opponentChoice := None;
     scores := {| you := 0; opponent := 0 |}; rounds := 0;
     opponentStrategy := "tit-for-tat"; lastOpponentMove := None |}.

Definition strategies : list string :=
  ["cooperate"; "defect"; "tit-for-tat"; "random"]%string.

Definition setYourChoice (v : option move) (s : state) : state :=
  {| yourChoice := v; opponentChoice := opponentChoice s; scores := scores s;
     rounds := rounds s; opponentStrategy := opponentStrategy s;
     lastOpponentMove := lastOpponentMove s |}.

Definition setOpponentChoice (v : option move) (s : state) : state :=
  {| yourChoice := yourChoice s; opponentChoice := v; scores := scores s;
     rounds := rounds s; opponentStrategy := opponentStrategy s;
     lastOpponentMove := lastOpponentMove s |}.

Definition setScores (f : points -> points) (s : state) : state :=
  {| yourChoice := yourChoice s; opponentChoice := opponentChoice s;
     scores := f (scores s); rounds := rounds s;
     opponentStrategy := opponentStrategy s;
     lastOpponentMove := lastOpponentMove s |}.

Definition setRounds (f : Z -> Z) (s : state) : state :=
  {| yourChoice := yourChoice s; opponentChoice := opponentChoice s;
     scores := scores s; rounds := f (rounds s);
     opponentStrategy := opponentStrategy s;
     lastOpponentMove := lastOpponentMove s |}.

Definition setOpponentStrategy (v : string) (s : state) : state :=
  {| yourChoice := yourChoice s; opponentChoice := opponentChoice s;
     scores := scores s; rounds := rounds s; opponentStrategy := v;
     lastOpponentMove := lastOpponentMove s |}.

Definition setLastOpponentMove (v : option move) (s : state) : state :=
  {| yourChoice := yourChoice s; opponentChoice := opponentChoice s;
     scores := scores s; rounds := rounds s;
     opponentStrategy := opponentStrategy s; lastOpponentMove := v |}.

(** [m || 'cooperate']: [null] is falsy, both move strings are truthy. *)
Definition or_cooperate (m : option move) : move :=
  match m with Some v => v | None => cooperate end.

(** The payoff matrix, as the [if] chain of [play]. *)
Definition payoff (choice oppMove : move) : Z * Z :=
  match choice, oppMove with
  | cooperate, cooperate => (3, 3)
  | cooperate, defect => (0, 5)
  | defect, cooperate => (5, 0)
  | _, _ => (1, 1)
  end.

Section Render.

(** The state this render read: the [opponentStrategy] and
    [lastOpponentMove] its handlers see. *)
Variable r : state.

(** The [switch]; [rnd] is what [Math.random()] returns in the random case. *)
Definition oppMove (rnd : float) : move :=
  if (opponentStrategy r =? "cooperate")%string then cooperate
  else if (opponentStrategy r =? "defect")%string then defect
  else if (opponentStrategy r =? "tit-for-tat")%string
       then or_cooperate (lastOpponentMove r)
  else if (opponentStrategy r =? "random")%string
       then (if (0.5 <? rnd)%float then cooperate else defect)
  else cooperate.

Definition play (choice : move) (rnd : float) : list (state -> state) :=
  let opp := oppMove rnd in
  let yourPoints := fst (payoff choice opp) in
  let oppPoints := snd (payoff choice opp) in
  [ setYourChoice (Some choice);
    setOpponentChoice (Some opp);
    setLastOpponentMove (Some choice);
    setRounds (fun n => n + 1);
    setScores (fun s => {| you := you s + yourPoints;
                           opponent := opponent s + oppPoints |}) ].

(** The [onChange] handler of the strategy selector; [value] is
    [e.target.value]. *)
Definition onChange (value : string) : list (state -> state) :=
  [ setOpponentStrategy value;
    setScores (fun _ => {| you := 0; opponent := 0 |});
    setRounds (fun _ => 0);
    setLastOpponentMove None ].

End Render.

(** A click on one of the two move buttons.  Clicks only ever reach the
    handlers of the render of the current state. *)
Definition click_play (choice : move) (rnd : float) (s : state) : state :=
  commit (play s choice rnd) s.

(** Choosing [value] in the strategy selector. *)
Definition select_strategy (value : string) (s : state) : state :=
  commit (onChange value) s.

(** A match: the rounds clicked one after the other, each with its move and
    with the number [Math.random()] would return in it. *)
Definition round := (move * float)%type.

Fixpoint play_all (rs : list round) (s : state) : state :=
  match rs with
  | [] => s
  | (choice, rnd) :: rs' => play_all rs' (click_play choice rnd s)
  end.

(** The opponent's move shown after each round of a match. *)
Fixpoint opponent_moves (rs : list round) (s : state) : list (option move) :=
  match rs with
  | [] => []
  | (choice, rnd) :: rs' =>
      let s' := click_play choice rnd s in
      opponentChoice s' :: opponent_moves rs' s'
  end.

(** Everything the user can do to the component. *)
Inductive event :=
| Play (choice : move) (rnd : float)
| Select (value : string).

Definition handle (e : event) (s : state) : state :=
  match e with
  | Play choice rnd => click_play choice rnd s
  | Select value => select_strategy value s
  end.

Definition run (es : list event) (s : state) : state :=
  fold_left (fun acc e => handle e acc) es s.

(** Invariant of the reachable states: no move is remembered exactly when no
    round has been played since the mount or the last strategy change. *)
Definition fresh_iff_no_memory (s : state) : Prop :=
  0 <= rounds s /\ (rounds s = 0 <-> lastOpponentMove s = None).

(** The events that play a round. *)
Definition is_play (e : event) : bool :=
  match e with Play _ _ => true | Select _ => false end.

(** Five points for a remembered defection, none otherwise. *)
Definition lead (m : option move) : Z :=
  match m with Some defect => 5 | _ => 0 end.

End GameTheory.

(** ** 04 - Topology *)
Module Topology.

Record state := { shape : string; rotation : Z }.

Definition initial : state := {| shape := "torus"; rotation := 0 |}.

Definition setRotation (f : Z -> Z) (s : state) : state :=
  {| shape := shape s; rotation := f (rotation s) |}.

Definition setShape (v : string) (s : state) : state :=
  {| shape := v; rotation := rotation s |}.

(** The interval callback.  [%] is the remainder of truncated division. *)
Definition interval : list (state -> state) :=
  [setRotation (fun r => Z.rem (r + 1) 360)].

(** One firing of the 50 ms interval. *)
Definition tick (s : state) : state := commit interval s.

Definition ticks (n : nat) (s : state) : state := Nat.iter n tick s.

(** The shape buttons, and the [className] of the button of shape [b]. *)
Definition shapes : list string := ["torus"; "mobius"; "klein"]%string.

Definition button_class (s : state) (b : string) : string :=
  if (shape s =? b)%string then "active"%string else ""%string.

Definition button_classes (s : state) : list string :=
  map (button_class s) shapes.

(** The interval firing, or a click on the button of shape [b]. *)
Inductive event :=
| Tick
| Click (b : string).

Definition handle (e : event) (s : state) : state :=
  match e with
  | Tick => tick s
  | Click b => commit [setShape b] s
  end.

Definition run (es : list event) (s : state) : state :=
  fold_left (fun acc e => handle e acc) es s.

Definition is_tick (e : event) : bool :=
  match e with Tick => true | Click _ => false end.

(** The clicks a user can make: on one of the three buttons. *)
Definition on_a_button (e : event) : Prop :=
  match e with Tick => True | Click b => In b shapes end.

(** The shape of the last click of [es], [d] if there is none. *)
Fixpoint last_click (es : list event) (d : string) : string :=
  match es with
  | [] => d
  | Tick :: es' => last_click es' d
  | Click b :: es' => last_click es' b
  end.

End Topology.

(** ** The page header *)
Module App.

(** [useState(false)]. *)
Definition initial : bool := false.

(** The scroll listener; [scrollY] is [window.scrollY] when it runs. *)
Definition handleScroll (scrollY : float) : list (bool -> bool) :=
  [fun _ => (50 <? scrollY)%float].

(** The [className] of the [nav] element. *)
Definition nav_class (scrolled : bool) : string :=
  if scrolled then "scrolled"%string else ""%string.

(** The scroll events of a visit, each with the scroll position it reads. *)
Definition scroll (positions : list float) (scrolled : bool) : bool :=
  fold_left (fun acc scrollY => commit (handleScroll scrollY) acc)
            positions scrolled.

End App.

(** * Properties *)

(** ** The Mandelbrot loop *)
Module FractalFacts.
Import Fractal.

Section Loop.

Variables (iterations : Z) (cx cy : float).

Lemma guard_lt (o : orbit) : guard iterations o = true -> i o < iterations.
Proof.
  unfold guard. intros H. apply andb_prop in H. destruct H as [_ H].
  now apply Z.ltb_lt.
Qed.

Lemma body_i (o : orbit) : i (body cx cy o) = i o + 1.
Proof. reflexivity. Qed.

(** The counter only grows, and never past the bound. *)
Lemma while_bounds (fuel : nat) :
  forall o, i o <= iterations ->
            i o <= i (while fuel iterations cx cy o) <= iterations.
Proof.
  induction fuel as [|fuel IH]; intros o Ho; simpl.
  - lia.
  - destruct (guard iterations o) eqn:G.
    + apply guard_lt in G.
      specialize (IH (body cx cy o)). rewrite body_i in IH. lia.
    + lia.
Qed.

(** With [iterations - i] turns of fuel the loop is left through its
    condition, not by exhaustion. *)
Lemma while_exits (fuel : nat) :
  forall o, iterations - i o <= Z.of_nat fuel ->
            guard iterations (while fuel iterations cx cy o) = false.
Proof.
  induction fuel as [|fuel IH]; intros o Ho; simpl.
  - unfold guard. replace (i o <? iterations) with false.
    + apply andb_false_r.
    + symmetry. apply Z.ltb_ge. lia.
  - destruct (guard iterations o) eqn:G; [|exact G].
    apply IH. rewrite body_i. lia.
Qed.

(** The loop ran the body [n] times, and its condition held before each. *)
Lemma while_trace (fuel : nat) :
  forall o, exists n : nat,
    while fuel iterations cx cy o = Nat.iter n (body cx cy) o
    /\ i (while fuel iterations cx cy o) = i o + Z.of_nat n
    /\ Forall (fun k => guard iterations (Nat.iter k (body cx cy) o) = true)
              (seq 0 n).
Proof.
  induction fuel as [|fuel IH]; intros o; simpl.
  - exists O. simpl. repeat split; [lia | constructor].
  - destruct (guard iterations o) eqn:G.
    + destruct (IH (body cx cy o)) as (n & E & I & F).
      exists (S n). rewrite Nat.iter_succ_r. repeat split.
      * exact E.
      * rewrite I, body_i. lia.
      * simpl. constructor; [exact G|].
        rewrite <- seq_shift. apply Forall_map.
        eapply Forall_impl; [|exact F].
        intros k Hk. rewrite Nat.iter_succ_r. exact Hk.
    + exists O. simpl. repeat split; [lia | constructor].
Qed.

End Loop.

Lemma black_colour (iterations count : Z) :
  count <= iterations ->
  (black (colour iterations count) <-> count = iterations).
Proof.
  intros Hc. unfold black, colour; simpl.
  destruct (count <? iterations) eqn:L.
  - apply Z.ltb_lt in L. split; [intros [H _]; discriminate | lia].
  - apply Z.ltb_ge in L. split; [lia | now split].
Qed.

(** C1: for every zoom, bound and pixel the loop ends with a count between 0
    and the bound; the pixel is painted black exactly when the count equals
    the bound; and the count is the number of steps [z <- z * z + c] from
    [z = 0] whose condition held, the loop ending where the condition fails. *)
Theorem count_in_range_black_iff_max (zoom : float) (iterations x y : Z) :
  0 <= iterations ->
  0 <= i (escape zoom iterations x y) <= iterations
  /\ (black (pixel zoom iterations x y)
      <-> i (escape zoom iterations x y) = iterations)
  /\ escape zoom iterations x y
     = orbit_at zoom x y (Z.to_nat (i (escape zoom iterations x y)))
  /\ Forall (fun k => guard iterations (orbit_at zoom x y k) = true)
            (seq 0 (Z.to_nat (i (escape zoom iterations x y))))
  /\ guard iterations (escape zoom iterations x y) = false.
Proof.
  intros Hit. unfold pixel, escape, orbit_at.
  set (c1 := cx zoom x). set (c2 := cy zoom y).
  pose proof (while_bounds iterations c1 c2 (Z.to_nat iterations) start) as B.
  simpl (i start) in B. specialize (B Hit).
  destruct (while_trace iterations c1 c2 (Z.to_nat iterations) start)
    as (n & E & I & F).
  simpl (i start) in I.
  assert (Hn : Z.to_nat (i (while (Z.to_nat iterations) iterations c1 c2 start)) = n)
    by (rewrite I; lia).
  split; [exact B|].
  split; [apply black_colour, B|].
  rewrite Hn.
  split; [exact E|].
  split; [exact F|].
  apply while_exits. simpl. lia.
Qed.

(** The theorem at zoom 1, 50 iterations, pixel (200, 200). *)
Lemma count_in_range_black_iff_max_witness :
  0 <= 50
  /\ 0 <= i (escape 1 50 200 200) <= 50
  /\ (black (pixel 1 50 200 200) <-> i (escape 1 50 200 200) = 50)
  /\ escape 1 50 200 200
     = orbit_at 1 200 200 (Z.to_nat (i (escape 1 50 200 200)))
  /\ Forall (fun k => guard 50 (orbit_at 1 200 200 k) = true)
            (seq 0 (Z.to_nat (i (escape 1 50 200 200))))
  /\ guard 50 (escape 1 50 200 200) = false.
Proof.
  split; [lia | apply (count_in_range_black_iff_max 1 50 200 200); lia].
Defined.

(** C7: at zoom 1 with 50 iterations the centre pixel (200, 200) samples
    c = -0.5 + 0i; the squared modulus is below 4 at z = 0 and after each of
    the 50 steps, so the count reaches 50 and the pixel is black. *)
Theorem centre_pixel_does_not_escape :
  cx 1 200 = (-0.5)%float
  /\ cy 1 200 = 0%float
  /\ i (escape 1 50 200 200) = 50
  /\ Forall (fun k => (norm2 (orbit_at 1 200 200 k) <? 4)%float = true)
            (seq 0 51)
  /\ black (pixel 1 50 200 200).
Proof.
  repeat split; try (vm_compute; reflexivity).
  apply Forall_forall. intros k Hk.
  assert (A : forallb (fun k => (norm2 (orbit_at 1 200 200 k) <? 4)%float)
                      (seq 0 51) = true) by (vm_compute; reflexivity).
  rewrite forallb_forall in A. now apply A.
Qed.

(** *** The count as a first exit *)

Lemma orbit_at_i (zoom : float) (x y : Z) (k : nat) :
  i (orbit_at zoom x y k) = Z.of_nat k.
Proof.
  unfold orbit_at. induction k as [|k IH]; [reflexivity|].
  rewrite Nat.iter_succ, body_i, IH. lia.
Qed.

Lemma start_inside : (norm2 start <? 4)%float = true.
Proof. vm_compute. reflexivity. Qed.

(** The count of a pixel is the first [n] at which the loop condition fails,
    and the loop ends in the orbit's [n]-th point. *)
Lemma escape_first_exit (zoom : float) (iterations x y : Z) :
  0 <= iterations ->
  exists n : nat,
    i (escape zoom iterations x y) = Z.of_nat n
    /\ Z.of_nat n <= iterations
    /\ (forall k, (k < n)%nat -> guard iterations (orbit_at zoom x y k) = true)
    /\ guard iterations (orbit_at zoom x y n) = false.
Proof.
  intros Hit. unfold escape, orbit_at.
  set (c1 := cx zoom x). set (c2 := cy zoom y).
  pose proof (while_bounds iterations c1 c2 (Z.to_nat iterations) start Hit) as B.
  pose proof (while_exits iterations c1 c2 (Z.to_nat iterations) start) as X.
  destruct (while_trace iterations c1 c2 (Z.to_nat iterations) start)
    as (n & E & I & F).
  cbn [i start] in I, X. exists n.
  split; [exact I|]. split; [lia|]. split.
  - intros k Hk. rewrite Forall_forall in F. apply F, in_seq. lia.
  - rewrite <- E. apply X. lia.
Qed.

(** X3: with a smaller bound the count is the count under the larger bound,
    cut off at the smaller one; so raising the bound never changes the count
    of a pixel that escaped. *)
Theorem count_is_cut_off_at_bound (zoom : float) (it it' x y : Z) :
  0 <= it -> it <= it' ->
  i (escape zoom it x y) = Z.min it (i (escape zoom it' x y)).
Proof.
  intros H0 Hle.
  destruct (escape_first_exit zoom it x y H0) as (n & En & Bn & Tn & Xn).
  destruct (escape_first_exit zoom it' x y ltac:(lia)) as (m & Em & Bm & Tm & Xm).
  rewrite En, Em.
  destruct (Nat.lt_trichotomy n m) as [L | [<- | L]].
  - specialize (Tm n L). unfold guard in Tm, Xn.
    apply andb_prop in Tm. destruct Tm as [In' _].
    rewrite In', orbit_at_i in Xn. cbn [andb] in Xn.
    apply Z.ltb_ge in Xn. lia.
  - lia.
  - specialize (Tn m L). unfold guard in Tn, Xm.
    apply andb_prop in Tn. destruct Tn as [Im Lm].
    rewrite Im, orbit_at_i in Xm. cbn [andb] in Xm.
    rewrite orbit_at_i in Lm. apply Z.ltb_ge in Xm. apply Z.ltb_lt in Lm. lia.
Qed.

(** The theorem at the centre pixel, bounds 10 and 50. *)
Lemma count_is_cut_off_at_bound_witness :
  0 <= 10 /\ 10 <= 50
  /\ i (escape 1 10 200 200) = Z.min 10 (i (escape 1 50 200 200)).
Proof.
  split; [lia|]. split; [lia|].
  apply (count_is_cut_off_at_bound 1 10 50 200 200); lia.
Defined.

(** X2: as soon as the bound is at least 1 the body runs once, since the
    loop starts at z = 0: no pixel has count 0. *)
Theorem count_at_least_one (zoom : float) (iterations x y : Z) :
  1 <= iterations -> 1 <= i (escape zoom iterations x y).
Proof.
  intros Hit.
  destruct (escape_first_exit zoom iterations x y ltac:(lia))
    as (n & En & _ & _ & Xn).
  rewrite En. destruct n as [|n]; [|lia].
  exfalso. unfold guard, orbit_at in Xn.
  change (Nat.iter 0 (body (cx zoom x) (cy zoom y)) start) with start in Xn.
  rewrite start_inside in Xn. cbn [andb i start] in Xn.
  apply Z.ltb_ge in Xn. lia.
Qed.

(** The theorem at the top left pixel, which escapes at once. *)
Lemma count_at_least_one_witness :
  1 <= 50 /\ 1 <= i (escape 1 50 0 0).
Proof. split; [lia | apply (count_at_least_one 1 50 0 0); lia]. Defined.

(** *** The raster scan *)

Lemma in_upto (n k : Z) : In k (upto n) <-> 0 <= k < n.
Proof.
  unfold upto. rewrite in_map_iff. split.
  - intros (j & <- & Hj). apply in_seq in Hj. lia.
  - intros Hk. exists (Z.to_nat k). split; [lia | apply in_seq; lia].
Qed.

Lemma NoDup_upto (n : Z) : NoDup (upto n).
Proof.
  unfold upto. apply NoDup_map_NoDup_ForallPairs; [|apply seq_NoDup].
  intros a b _ _ E. lia.
Qed.

Lemma length_upto (n : Z) : List.length (upto n) = Z.to_nat n.
Proof. unfold upto. rewrite length_map. apply length_seq. Qed.

Lemma NoDup_list_prod {A B : Type} (l : list A) (l' : list B) :
  NoDup l -> NoDup l' -> NoDup (list_prod l l').
Proof.
  intros Hl Hl'. induction Hl as [|a l Ha Hl IH]; [constructor|].
  cbn [list_prod]. apply NoDup_app.
  - apply NoDup_map_NoDup_ForallPairs; [|exact Hl'].
    intros b b' _ _ E. congruence.
  - exact IH.
  - intros [a' b] H1 H2. apply in_map_iff in H1. destruct H1 as (b' & E & _).
    apply in_prod_iff in H2. destruct H2 as [H2 _]. congruence.
Qed.

Lemma paint_coordinates (zoom : float) (iterations : Z) :
  map (fun f => (rect_x f, rect_y f)) (paint zoom iterations)
  = list_prod (upto width) (upto height).
Proof.
  unfold paint. generalize (upto width) as xs. intros xs.
  induction xs as [|a xs IH]; [reflexivity|].
  cbn [flat_map list_prod]. rewrite map_app, IH, map_map. reflexivity.
Qed.

(** X1: one rendering pass fills every pixel of the 400 x 400 canvas with a
    1 x 1 rectangle of that pixel's colour, fills nothing else, and fills no
    pixel twice. *)
Theorem paint_fills_each_pixel_once (zoom : float) (iterations : Z) :
  (forall f : fillRect,
      In f (paint zoom iterations)
      <-> 0 <= rect_x f < 400 /\ 0 <= rect_y f < 400
          /\ rect_w f = 1 /\ rect_h f = 1
          /\ fillStyle f = pixel zoom iterations (rect_x f) (rect_y f))
  /\ NoDup (map (fun f => (rect_x f, rect_y f)) (paint zoom iterations))
  /\ Z.of_nat (List.length (paint zoom iterations)) = 160000.
Proof.
  split; [|split].
  - intros f. unfold paint. rewrite in_flat_map. split.
    + intros (a & Ha & Hf). apply in_map_iff in Hf. destruct Hf as (b & <- & Hb).
      apply in_upto in Ha. apply in_upto in Hb. unfold width in Ha.
      unfold height in Hb. cbn [rect_x rect_y rect_w rect_h fillStyle].
      repeat split; lia.
    + intros (Hx & Hy & Hw & Hh & Hs). exists (rect_x f). split.
      * apply in_upto. unfold width. lia.
      * apply in_map_iff. exists (rect_y f). split.
        -- destruct f as [fx fy fw fh fs]. cbn in *. subst. reflexivity.
        -- apply in_upto. unfold height. lia.
  - rewrite paint_coordinates.
    apply NoDup_list_prod; apply NoDup_upto.
  - rewrite <- (length_map (fun f => (rect_x f, rect_y f))), paint_coordinates.
    rewrite length_prod, !length_upto, Nat2Z.inj_mul, !Z2Nat.id;
      unfold width, height; lia.
Qed.

(** *** The slider settings *)

(** X4: whatever the two sliders are set to, the centre pixel samples
    c = -0.5 + 0i (real part -0.5, imaginary part 0), its count reaches the
    bound and it is painted black. *)
Theorem centre_black_at_every_setting (zoom : float) (iterations : Z) :
  In zoom zoom_values -> In iterations iterations_values ->
  cx zoom 200 = (-0.5)%float
  /\ cy zoom 200 = 0%float
  /\ i (escape zoom iterations 200 200) = iterations
  /\ black (pixel zoom iterations 200 200).
Proof.
  intros Hz Hi.
  assert (A : cx zoom 200 = (-0.5)%float
              /\ cy zoom 200 = 0%float
              /\ forallb (fun n => i (escape zoom n 200 200) =? n)
                         iterations_values = true).
  { unfold zoom_values in Hz. cbn [In] in Hz.
    repeat (destruct Hz as [<- | Hz];
            [repeat split; vm_compute; reflexivity|]).
    contradiction. }
  destruct A as (C & C' & A). rewrite forallb_forall in A.
  specialize (A iterations Hi). apply Z.eqb_eq in A.
  split; [exact C|]. split; [exact C'|]. split; [exact A|].
  unfold pixel. apply black_colour; lia.
Qed.

(** The theorem at zoom 2.5 with 150 iterations. *)
Lemma centre_black_at_every_setting_witness :
  In 2.5%float zoom_values /\ In 150 iterations_values
  /\ cx 2.5 200 = (-0.5)%float
  /\ cy 2.5 200 = 0%float
  /\ i (escape 2.5 150 200 200) = 150
  /\ black (pixel 2.5 150 200 200).
Proof.
  assert (Hz : In 2.5%float zoom_values) by (cbn; tauto).
  assert (Hi : In 150 iterations_values) by (cbn; tauto).
  split; [exact Hz|]. split; [exact Hi|].
  exact (centre_black_at_every_setting 2.5 150 Hz Hi).
Defined.

(** X5: at every setting of the iterations slider the hue of a count between
    0 and the bound lies in [0, 360], and is below 360 unless the count is
    the bound. *)
Theorem hue_on_colour_wheel (iterations count : Z) :
  In iterations iterations_values -> 0 <= count <= iterations ->
  (0 <=? hue (colour iterations count))%float = true
  /\ (hue (colour iterations count) <=? 360)%float = true
  /\ (count < iterations ->
      (hue (colour iterations count) <? 360)%float = true).
Proof.
  intros Hi Hc.
  assert (A : forallb
                (fun c => (0 <=? hue (colour iterations c))%float
                          && (hue (colour iterations c) <=? 360)%float
                          && ((iterations <=? c)
                              || (hue (colour iterations c) <? 360)%float))
                (upto (iterations + 1)) = true).
  { unfold iterations_values in Hi. cbn [In] in Hi.
    repeat (destruct Hi as [<- | Hi]; [vm_compute; reflexivity|]).
    contradiction. }
  rewrite forallb_forall in A.
  specialize (A count ltac:(apply in_upto; lia)).
  apply andb_prop in A. destruct A as [A A3].
  apply andb_prop in A. destruct A as [A1 A2].
  split; [exact A1|]. split; [exact A2|].
  intros Hlt. apply orb_prop in A3. destruct A3 as [A3|A3]; [|exact A3].
  apply Z.leb_le in A3. lia.
Qed.

(** The theorem at 50 iterations, for a pixel that escaped after 7 steps. *)
Lemma hue_on_colour_wheel_witness :
  In 50 iterations_values /\ 0 <= 7 <= 50
  /\ (0 <=? hue (colour 50 7))%float = true
  /\ (hue (colour 50 7) <=? 360)%float = true
  /\ (hue (colour 50 7) <? 360)%float = true.
Proof.
  assert (Hi : In 50 iterations_values) by (cbn; tauto).
  destruct (hue_on_colour_wheel 50 7 Hi ltac:(lia)) as (A & B & C).
  split; [exact Hi|]. split; [lia|]. split; [exact A|]. split; [exact B|].
  apply C. lia.
Defined.

End FractalFacts.

(** ** The coin-flip simulator *)
Module ProbabilityFacts.
Import Probability.

Lemma slice_last_length {A : Type} (n : nat) (l : list A) :
  List.length (slice_last n l) = Nat.min n (List.length l).
Proof. unfold slice_last. rewrite length_skipn. lia. Qed.

Lemma slice_last_short {A : Type} (n : nat) (l : list A) :
  (List.length l <= n)%nat -> slice_last n l = l.
Proof.
  intros H. unfold slice_last.
  replace (List.length l - n)%nat with O by lia. reflexivity.
Qed.

Lemma slice_last_drops_oldest {A : Type} (n : nat) (l : list A) :
  List.length l = S n -> slice_last n l = tl l.
Proof.
  intros H. unfold slice_last.
  replace (List.length l - n)%nat with 1%nat by lia.
  destruct l; reflexivity.
Qed.

(** What one call of [runTrial] does to the state it is committed on: the
    counters move from the state, the ratio comes from the render [r]. *)
Lemma runTrial_commit (r : state) (rnd : float) (s : state) :
  commit (runTrial r rnd) s
  = {| trials := trials s + 1;
       heads := if (0.5 <? rnd)%float then heads s + 1 else heads s;
       history := slice_last 50 (history s) ++ [newRatio r (0.5 <? rnd)%float] |}.
Proof.
  unfold runTrial, commit. destruct (0.5 <? rnd)%float; reflexivity.
Qed.

(** The history is capped at 51 entries, whatever the render. *)
Lemma runTrial_history_length (r : state) (rnd : float) (s : state) :
  List.length (history (commit (runTrial r rnd) s))
  = Nat.min 51 (List.length (history s) + 1).
Proof.
  rewrite runTrial_commit. cbn [history].
  rewrite length_app, slice_last_length. cbn [List.length]. lia.
Qed.

(** A click on "Flip Once" runs the handler of the render of the very state
    it updates, so there the ratio is the new running ratio. *)
Lemma flip_once_running_ratio (rnd : float) (s : state) :
  let result := (0.5 <? rnd)%float in
  let heads' := if result then heads s + 1 else heads s in
  click_flip_once rnd s
  = {| trials := trials s + 1;
       heads := heads';
       history := slice_last 50 (history s)
                    ++ [(js_num heads' / js_num (trials s + 1))%float] |}.
Proof.
  unfold click_flip_once. rewrite runTrial_commit.
  unfold newRatio. destruct (0.5 <? rnd)%float; reflexivity.
Qed.

(** C2: "Flip 100x" on the fresh state, first timer drawing heads (0.75) and
    second drawing tails (0.25).  The second call of [runTrial] starts from
    trials = 1, heads = 1 and moves the counters to 2 and 1, but the ratio it
    appends is 0 = 0 / (0 + 1), from the counters of the render that set the
    timers, where the counters it starts from give 1 / (1 + 1) = 0.5. *)
Theorem burst_second_ratio_is_stale :
  burst initial [0.75%float] initial
  = {| trials := 1; heads := 1; history := [1%float] |}
  /\ burst initial [0.75%float; 0.25%float] initial
     = {| trials := 2; heads := 1; history := [1%float; 0%float] |}
  /\ newRatio (burst initial [0.75%float] initial) false = 0.5%float
  /\ click_flip_once 0.25 (burst initial [0.75%float] initial)
     = {| trials := 2; heads := 1; history := [1%float; 0.5%float] |}.
Proof. repeat split; vm_compute; reflexivity. Qed.

(** C6, as stated, fails: after one flip that comes up heads on the fresh
    state the history holds the ratio 1, while the deviation of that ratio
    from 0.5 is 0.5. *)
Lemma appended_value_is_not_deviation :
  history (click_flip_once 0.75 initial) = [newRatio initial true]
  /\ newRatio initial true = 1%float
  /\ deviation (newRatio initial true) = 0.5%float
  /\ history (click_flip_once 0.75 initial) <> [deviation (newRatio initial true)].
Proof.
  repeat split; try (vm_compute; reflexivity).
  intros H.
  apply (f_equal (fun h => match h with
                           | v :: _ => (v <? 0.75)%float
                           | [] => false
                           end)) in H.
  vm_compute in H. discriminate.
Qed.

(** C6, amended: [runTrial] appends the ratio itself, (heads + 1) / (trials + 1)
    when the draw is above 0.5 and heads / (trials + 1) otherwise, with the
    heads and trials its render read; the distance from 0.5 is taken when the
    history is drawn, where the bar of an entry [val] is [|val - 0.5| * 500]
    pixels high with hue [220 - |val - 0.5| * 500]. *)
Theorem appended_value_is_raw_ratio (r : state) (rnd : float) (s : state) :
  history (commit (runTrial r rnd) s)
  = slice_last 50 (history s)
      ++ [if (0.5 <? rnd)%float
          then (js_num (heads r + 1) / js_num (trials r + 1))%float
          else (js_num (heads r) / js_num (trials r + 1))%float]
  /\ (forall val : float,
         prob_bar val
         = ((PrimFloat.abs (val - 0.5) * 500)%float,
            (220 - PrimFloat.abs (val - 0.5) * 500)%float))
  /\ map prob_bar (history (commit (runTrial r rnd) s))
     = map prob_bar (slice_last 50 (history s))
         ++ [if (0.5 <? rnd)%float
             then ((PrimFloat.abs
                      (js_num (heads r + 1) / js_num (trials r + 1) - 0.5)
                    * 500)%float,
                   (220 - PrimFloat.abs
                            (js_num (heads r + 1) / js_num (trials r + 1) - 0.5)
                          * 500)%float)
             else ((PrimFloat.abs
                      (js_num (heads r) / js_num (trials r + 1) - 0.5)
                    * 500)%float,
                   (220 - PrimFloat.abs
                            (js_num (heads r) / js_num (trials r + 1) - 0.5)
                          * 500)%float)].
Proof.
  rewrite runTrial_commit. cbn [history]. unfold newRatio.
  split; [reflexivity|]. split; [reflexivity|].
  rewrite map_app. destruct (0.5 <? rnd)%float; reflexivity.
Qed.

(** C8: whatever the state, [reset] leaves trials = 0, heads = 0 and an empty
    history. *)
Theorem reset_clears_everything (s : state) :
  trials (click_reset s) = 0
  /\ heads (click_reset s) = 0
  /\ history (click_reset s) = [].
Proof. repeat split. Qed.

(** *** The rolling window *)

Lemma slice_last_snoc {A : Type} (n : nat) (l : list A) (x : A) :
  slice_last n l ++ [x] = slice_last (S n) (l ++ [x]).
Proof.
  unfold slice_last. rewrite length_app, skipn_app. cbn [List.length].
  replace (List.length l + 1 - S n)%nat with (List.length l - n)%nat by lia.
  replace (List.length l - n - List.length l)%nat with O by lia.
  reflexivity.
Qed.

Lemma slice_last_slice_last {A : Type} (n m : nat) (l : list A) :
  (n <= m)%nat -> slice_last n (slice_last m l) = slice_last n l.
Proof.
  intros H. unfold slice_last. rewrite skipn_skipn, length_skipn.
  f_equal. lia.
Qed.

Lemma slice_last_app_long {A : Type} (n : nat) (l1 l2 : list A) :
  (n <= List.length l2)%nat -> slice_last n (l1 ++ l2) = slice_last n l2.
Proof.
  intros H. unfold slice_last. rewrite length_app, skipn_app.
  rewrite skipn_all2 by lia. cbn [app]. f_equal. lia.
Qed.

Lemma Forall_slice_last {A : Type} (P : A -> Prop) (n : nat) (l : list A) :
  Forall P l -> Forall P (slice_last n l).
Proof.
  intros H. unfold slice_last. generalize (List.length l - n)%nat as k.
  intros k. revert l H. induction k as [|k IH]; intros l H; [exact H|].
  destruct H as [|a l Ha H]; [constructor | apply IH, H].
Qed.

(** One call of [runTrial] slides the window by one. *)
Lemma runTrial_slides_window (r : state) (rnd : float) (s : state)
      (acc : list float) :
  history s = slice_last 51 acc ->
  history (commit (runTrial r rnd) s)
  = slice_last 51 (acc ++ [newRatio r (0.5 <? rnd)%float]).
Proof.
  intros H. rewrite runTrial_commit. cbn [history].
  rewrite H, slice_last_slice_last by lia. apply slice_last_snoc.
Qed.

Lemma run_window (es : list event) :
  forall s acc, history s = slice_last 51 acc ->
                history (run es s) = slice_last 51 (appended es s acc).
Proof.
  unfold run. induction es as [|e es IH]; intros s acc H; [exact H|].
  cbn [fold_left appended]. apply IH. destruct e as [rnd|r rnd|].
  - apply runTrial_slides_window, H.
  - apply runTrial_slides_window, H.
  - reflexivity.
Qed.

(** X6: after any sequence of clicks and timers from the mount, the history
    is exactly the last 51 of the ratios appended since the last reset. *)
Theorem history_is_last_51_appended (es : list event) :
  history (run es initial) = slice_last 51 (appended es initial []).
Proof. apply run_window. reflexivity. Qed.

(** *** Counters *)

Lemma handle_trial_counters (e : event) (s : state) :
  is_trial e = true ->
  trials (handle e s) = trials s + 1
  /\ heads (handle e s) = heads s + (if draws_heads e then 1 else 0)
  /\ List.length (history (handle e s))
     = Nat.min 51 (List.length (history s) + 1).
Proof.
  destruct e as [rnd|r rnd|]; [| |discriminate]; intros _;
    cbn [handle draws_heads]; unfold click_flip_once;
    (split; [|split; [|apply runTrial_history_length]]);
    rewrite runTrial_commit; cbn [trials heads];
    try reflexivity; destruct (0.5 <? rnd)%float; lia.
Qed.

(** X7: in every state reachable from the mount, heads and trials are not
    negative, heads does not exceed trials and the history holds at most 51
    entries, also while the timers of a "Flip 100x" are still firing. *)
Theorem counters_and_history_bounded (es : list event) :
  0 <= heads (run es initial) <= trials (run es initial)
  /\ (List.length (history (run es initial)) <= 51)%nat.
Proof.
  unfold run.
  assert (G : forall s,
             0 <= heads s <= trials s /\ (List.length (history s) <= 51)%nat ->
             0 <= heads (fold_left (fun acc e => handle e acc) es s)
             <= trials (fold_left (fun acc e => handle e acc) es s)
             /\ (List.length
                   (history (fold_left (fun acc e => handle e acc) es s))
                 <= 51)%nat).
  { induction es as [|e es IH]; intros s Hs; [exact Hs|].
    cbn [fold_left]. apply IH. destruct (is_trial e) eqn:T.
    - destruct (handle_trial_counters e s T) as (A & B & C).
      rewrite A, B, C. destruct (draws_heads e); lia.
    - destruct e; try discriminate. cbn. lia. }
  apply G. cbn. lia.
Qed.

Lemma run_trials_counters (post : list event) :
  forall s, Forall (fun e => is_trial e = true) post ->
  (List.length (history s) <= 51)%nat ->
  trials (run post s) = trials s + Z.of_nat (List.length post)
  /\ heads (run post s)
     = heads s + Z.of_nat (List.length (filter draws_heads post))
  /\ List.length (history (run post s))
     = Nat.min 51 (List.length (history s) + List.length post).
Proof.
  unfold run. induction post as [|e post IH]; intros s F L.
  - cbn [fold_left List.length filter]. lia.
  - apply Forall_cons_iff in F. destruct F as [T F].
    destruct (handle_trial_counters e s T) as (A & B & C).
    cbn [fold_left]. destruct (IH (handle e s) F ltac:(lia)) as (A' & B' & C').
    rewrite A', B', C', A, B, C. cbn [filter List.length].
    destruct (draws_heads e); cbn [List.length]; lia.
Qed.

Lemma trials_run_app (es es' : list event) (s : state) :
  run (es ++ es') s = run es' (run es s).
Proof. apply fold_left_app. Qed.

(** X8: after a reset, whatever came before it, trials is the number of
    [runTrial] calls made since (clicks and timers alike, so a reset does not
    stop the timers of a "Flip 100x" in flight), heads is the number of those
    that drew above 0.5, and the history holds one entry per call up to 51. *)
Theorem counters_count_calls_since_reset (pre post : list event) (s : state) :
  Forall (fun e => is_trial e = true) post ->
  trials (run (pre ++ Reset :: post) s) = Z.of_nat (List.length post)
  /\ heads (run (pre ++ Reset :: post) s)
     = Z.of_nat (List.length (filter draws_heads post))
  /\ List.length (history (run (pre ++ Reset :: post) s))
     = Nat.min 51 (List.length post).
Proof.
  intros F. rewrite trials_run_app.
  change (run (Reset :: post) (run pre s)) with (run post initial).
  destruct (run_trials_counters post initial F) as (A & B & C).
  - cbn. lia.
  - rewrite A, B, C. cbn. repeat split; lia.
Qed.

(** The theorem on: a flip, a reset, then a flip (heads) and a stale timer
    (tails). *)
Lemma counters_count_calls_since_reset_witness :
  Forall (fun e => is_trial e = true) [FlipOnce 0.75; Timer initial 0.25]
  /\ trials (run ([FlipOnce 0.25] ++ Reset :: [FlipOnce 0.75; Timer initial 0.25])
                 initial) = 2
  /\ heads (run ([FlipOnce 0.25] ++ Reset :: [FlipOnce 0.75; Timer initial 0.25])
                initial) = 1
  /\ List.length
       (history (run ([FlipOnce 0.25] ++ Reset
                        :: [FlipOnce 0.75; Timer initial 0.25]) initial))
     = 2%nat.
Proof.
  assert (F : Forall (fun e => is_trial e = true)
                     [FlipOnce 0.75; Timer initial 0.25])
    by (repeat constructor).
  split; [exact F|].
  exact (counters_count_calls_since_reset
           [FlipOnce 0.25] [FlipOnce 0.75; Timer initial 0.25] initial F).
Defined.

(** X9: the newest history entry after a click on "Flip Once" is the ratio of
    the counters as they stand after the click, heads / trials. *)
Theorem flip_once_appends_new_ratio (rnd : float) (s : state) (d : float) :
  last (history (click_flip_once rnd s)) d
  = (js_num (heads (click_flip_once rnd s))
     / js_num (trials (click_flip_once rnd s)))%float.
Proof.
  rewrite flip_once_running_ratio. cbn [history heads trials].
  apply last_last.
Qed.

(** *** The timers of "Flip 100x" *)

Lemma burst_as_run (r : state) (rnds : list float) (s : state) :
  burst r rnds s = run (map (Timer r) (firstn 100 rnds)) s.
Proof.
  unfold burst, runMany, run.
  rewrite <- (length_seq 100 0) at 2.
  generalize (seq 0 100) as ks. intros ks. revert rnds s.
  induction ks as [|k ks IH]; intros rnds s; [reflexivity|].
  destruct rnds as [|u rnds]; [reflexivity|].
  cbn [map combine fold_left List.length firstn]. apply IH.
Qed.

Lemma appended_timers (r : state) (us : list float) :
  forall s acc,
    appended (map (Timer r) us) s acc
    = acc ++ map (fun u => newRatio r (0.5 <? u)%float) us.
Proof.
  induction us as [|u us IH]; intros s acc.
  - cbn. symmetry. apply app_nil_r.
  - cbn [map appended]. rewrite IH, <- app_assoc. reflexivity.
Qed.

Lemma timers_history (r : state) (u : float) (us : list float) (s : state) :
  history (run (map (Timer r) (u :: us)) s)
  = slice_last 51 (history s
                     ++ map (fun v => newRatio r (0.5 <? v)%float) (u :: us)).
Proof.
  cbn [map]. change (run (Timer r u :: map (Timer r) us) s)
    with (run (map (Timer r) us) (commit (runTrial r u) s)).
  rewrite (run_window _ _ (history s ++ [newRatio r (0.5 <? u)%float])).
  - rewrite appended_timers, <- app_assoc. reflexivity.
  - rewrite runTrial_commit. cbn [history]. apply slice_last_snoc.
Qed.

Lemma two_ratios (r : state) (us : list float) :
  Forall (fun v => v = (js_num (heads r + 1) / js_num (trials r + 1))%float
                   \/ v = (js_num (heads r) / js_num (trials r + 1))%float)
         (map (fun u => newRatio r (0.5 <? u)%float) us).
Proof.
  apply Forall_forall. intros v Hv. apply in_map_iff in Hv.
  destruct Hv as (u & <- & _). destruct (0.5 <? u)%float; [left | right];
    reflexivity.
Qed.

(** X10: when the 100 timers of one "Flip 100x" click have fired, trials has
    grown by 100 and heads by the number of draws above 0.5, the history
    holds 51 entries, and every one of them is one of the two ratios of the
    render the click was made in: (heads + 1) / (trials + 1) or
    heads / (trials + 1) with that render's counters. *)
Theorem burst_of_100 (r : state) (rnds : list float) (s : state) :
  (100 <= List.length rnds)%nat ->
  trials (burst r rnds s) = trials s + 100
  /\ heads (burst r rnds s)
     = heads s
       + Z.of_nat (List.length
                     (filter (fun u => (0.5 <? u)%float) (firstn 100 rnds)))
  /\ List.length (history (burst r rnds s)) = 51%nat
  /\ Forall (fun v => v = (js_num (heads r + 1) / js_num (trials r + 1))%float
                      \/ v = (js_num (heads r) / js_num (trials r + 1))%float)
            (history (burst r rnds s)).
Proof.
  intros L. rewrite burst_as_run.
  assert (L100 : List.length (firstn 100 rnds) = 100%nat)
    by (rewrite length_firstn; lia).
  revert L100. generalize (firstn 100 rnds) as us. intros us L100.
  assert (T : forall s', trials (run (map (Timer r) us) s')
                         = trials s' + Z.of_nat (List.length us)
                         /\ heads (run (map (Timer r) us) s')
                            = heads s'
                              + Z.of_nat
                                  (List.length
                                     (filter (fun u => (0.5 <? u)%float) us))).
  { unfold run. clear L100. induction us as [|u us IH]; intros s'.
    - cbn. lia.
    - cbn [map fold_left filter handle].
      destruct (IH (commit (runTrial r u) s')) as [A B].
      rewrite A, B, runTrial_commit. cbn [trials heads List.length].
      destruct (0.5 <? u)%float; cbn [List.length]; lia. }
  destruct (T s) as [A B]. rewrite A, B, L100.
  split; [reflexivity|]. split; [reflexivity|].
  destruct us as [|u us]; [discriminate|].
  rewrite timers_history.
  rewrite slice_last_app_long by (rewrite length_map; lia).
  split.
  - rewrite slice_last_length, length_map. lia.
  - apply Forall_slice_last, two_ratios.
Qed.

(** The theorem for a burst from the mount that draws heads every time. *)
Lemma burst_of_100_witness :
  (100 <= List.length (repeat 0.75%float 100))%nat
  /\ trials (burst initial (repeat 0.75%float 100) initial) = trials initial + 100
  /\ heads (burst initial (repeat 0.75%float 100) initial)
     = heads initial
       + Z.of_nat (List.length
                     (filter (fun u => (0.5 <? u)%float)
                             (firstn 100 (repeat 0.75%float 100))))
  /\ List.length (history (burst initial (repeat 0.75%float 100) initial))
     = 51%nat
  /\ Forall (fun v => v = (js_num (heads initial + 1)
                           / js_num (trials initial + 1))%float
                      \/ v = (js_num (heads initial)
                              / js_num (trials initial + 1))%float)
            (history (burst initial (repeat 0.75%float 100) initial)).
Proof.
  assert (L : (100 <= List.length (repeat 0.75%float 100))%nat)
    by (rewrite repeat_length; lia).
  split; [exact L|].
  exact (burst_of_100 initial (repeat 0.75%float 100) initial L).
Defined.

(** X11: after a "Flip 100x" on the fresh component, whatever is drawn, each
    history entry is 0 or 1, so every bar is 250 pixels high with hue -30. *)
Theorem fresh_burst_bars_all_equal (rnds : list float) :
  Forall (fun v => prob_bar v = (250, -30)%float)
         (history (burst initial rnds initial)).
Proof.
  rewrite burst_as_run.
  rewrite (run_window _ initial []) by reflexivity.
  rewrite appended_timers. cbn [app]. apply Forall_slice_last.
  eapply Forall_impl; [|apply two_ratios].
  intros v [-> | ->]; vm_compute; reflexivity.
Qed.

End ProbabilityFacts.

(** ** The prisoner's dilemma *)
Module GameTheoryFacts.
Import GameTheory.

(** The state after one round, field by field. *)
Lemma click_play_state (choice : move) (rnd : float) (s : state) :
  click_play choice rnd s
  = {| yourChoice := Some choice;
       opponentChoice := Some (oppMove s rnd);
       scores := {| you := you (scores s) + fst (payoff choice (oppMove s rnd));
                    opponent := opponent (scores s)
                                + snd (payoff choice (oppMove s rnd)) |};
       rounds := rounds s + 1;
       opponentStrategy := opponentStrategy s;
       lastOpponentMove := Some choice |}.
Proof. reflexivity. Qed.

Lemma oppMove_tit_for_tat (s : state) (rnd : float) :
  opponentStrategy s = "tit-for-tat"%string ->
  oppMove s rnd = or_cooperate (lastOpponentMove s).
Proof. intros E. unfold oppMove. rewrite E. reflexivity. Qed.

Lemma oppMove_cooperate (s : state) (rnd : float) :
  opponentStrategy s = "cooperate"%string -> oppMove s rnd = cooperate.
Proof. intros E. unfold oppMove. rewrite E. reflexivity. Qed.

(** Under tit-for-tat the opponent's moves of a match are the remembered move
    (or cooperate) followed by the human's moves, the last one left out. *)
Lemma tit_for_tat_moves (rs : list round) :
  forall s, opponentStrategy s = "tit-for-tat"%string ->
  opponent_moves rs s
  = map Some (firstn (List.length rs)
                     (or_cooperate (lastOpponentMove s) :: map fst rs)).
Proof.
  induction rs as [|[choice rnd] rs IH]; intros s E; [reflexivity|].
  cbn [opponent_moves]. rewrite IH by exact E.
  rewrite click_play_state. cbn [opponentChoice lastOpponentMove].
  rewrite (oppMove_tit_for_tat _ _ E). reflexivity.
Qed.

Lemma handle_fresh_iff_no_memory (e : event) (s : state) :
  fresh_iff_no_memory s -> fresh_iff_no_memory (handle e s).
Proof.
  unfold fresh_iff_no_memory. intros [P _]. destruct e as [choice rnd|value].
  - cbn [handle]. rewrite click_play_state. cbn [rounds lastOpponentMove].
    split; [lia|]. split; [lia | discriminate].
  - cbn. split; [lia | tauto].
Qed.

Lemma run_fresh_iff_no_memory (es : list event) :
  fresh_iff_no_memory (run es initial).
Proof.
  unfold run.
  assert (G : forall s, fresh_iff_no_memory s ->
                        fresh_iff_no_memory
                          (fold_left (fun acc e => handle e acc) es s)).
  { induction es as [|e es IH]; intros s Hs; [exact Hs|].
    cbn [fold_left]. apply IH, handle_fresh_iff_no_memory, Hs. }
  apply G. unfold fresh_iff_no_memory, initial. cbn [rounds lastOpponentMove].
  split; [lia | tauto].
Qed.

(** C3: in a match played against tit-for-tat, the opponent's move in round
    n + 1 is the human's move in round n; and when no human move is
    remembered, the opponent's move in the first round is cooperate. *)
Theorem tit_for_tat_replays_previous_move (rs : list round) (s : state) :
  opponentStrategy s = "tit-for-tat"%string ->
  (lastOpponentMove s = None -> rs <> [] ->
   nth_error (opponent_moves rs s) 0 = Some (Some cooperate))
  /\ (forall (n : nat) (choice : move),
        nth_error (map fst rs) n = Some choice ->
        (S n < List.length rs)%nat ->
        nth_error (opponent_moves rs s) (S n) = Some (Some choice)).
Proof.
  intros E. rewrite (tit_for_tat_moves rs s E). split.
  - intros M Hrs. rewrite M. destruct rs as [|r rs]; [congruence|reflexivity].
  - intros n choice Hn Hlt.
    rewrite nth_error_map, nth_error_firstn.
    destruct (Nat.ltb_spec (S n) (List.length rs)) as [_|]; [|lia].
    cbn [nth_error]. rewrite Hn. reflexivity.
Qed.

(** The theorem on the match defect, cooperate, defect played from the mount:
    the opponent answers cooperate, defect, cooperate. *)
Lemma tit_for_tat_replays_previous_move_witness :
  opponentStrategy initial = "tit-for-tat"%string
  /\ lastOpponentMove initial = None
  /\ nth_error (opponent_moves
                  [(defect, 0.25%float); (cooperate, 0.75%float); (defect, 0.5%float)]
                  initial) 0
     = Some (Some cooperate)
  /\ nth_error (opponent_moves
                  [(defect, 0.25%float); (cooperate, 0.75%float); (defect, 0.5%float)]
                  initial) 1
     = Some (Some defect)
  /\ nth_error (opponent_moves
                  [(defect, 0.25%float); (cooperate, 0.75%float); (defect, 0.5%float)]
                  initial) 2
     = Some (Some cooperate).
Proof.
  destruct (tit_for_tat_replays_previous_move
              [(defect, 0.25%float); (cooperate, 0.75%float); (defect, 0.5%float)]
              initial eq_refl) as [First Next].
  split; [reflexivity|]. split; [reflexivity|].
  split; [apply First; [reflexivity | discriminate]|].
  split.
  - apply (Next 0%nat defect); [reflexivity | cbn; lia].
  - apply (Next 1%nat cooperate); [reflexivity | cbn; lia].
Defined.

(** C4: whatever the state, choosing a strategy in the selector sets the
    scores to 0 and 0, the round count to 0 and the remembered move to null
    (and the strategy to the chosen one). *)
Theorem strategy_change_resets (value : string) (s : state) :
  scores (select_strategy value s) = {| you := 0; opponent := 0 |}
  /\ rounds (select_strategy value s) = 0
  /\ lastOpponentMove (select_strategy value s) = None
  /\ opponentStrategy (select_strategy value s) = value.
Proof. repeat split. Qed.

(** C5: against the constant cooperate strategy a round played with
    cooperate adds 3 to each score, and a round played with defect adds 5 to
    the human's score and 0 to the opponent's. *)
Theorem payoff_against_cooperator (rnd : float) (s : state) :
  opponentStrategy s = "cooperate"%string ->
  scores (click_play cooperate rnd s)
  = {| you := you (scores s) + 3; opponent := opponent (scores s) + 3 |}
  /\ scores (click_play defect rnd s)
     = {| you := you (scores s) + 5; opponent := opponent (scores s) + 0 |}.
Proof.
  intros E. rewrite !click_play_state. cbn [scores].
  rewrite (oppMove_cooperate _ _ E). split; reflexivity.
Qed.

(** The theorem on the state reached by selecting "cooperate" at the mount. *)
Lemma payoff_against_cooperator_witness :
  opponentStrategy (select_strategy "cooperate" initial) = "cooperate"%string
  /\ scores (click_play cooperate 0.25 (select_strategy "cooperate" initial))
     = {| you := you (scores (select_strategy "cooperate" initial)) + 3;
          opponent := opponent (scores (select_strategy "cooperate" initial)) + 3 |}
  /\ scores (click_play defect 0.25 (select_strategy "cooperate" initial))
     = {| you := you (scores (select_strategy "cooperate" initial)) + 5;
          opponent := opponent (scores (select_strategy "cooperate" initial)) + 0 |}.
Proof.
  split; [reflexivity|].
  apply (payoff_against_cooperator 0.25 (select_strategy "cooperate" initial)).
  reflexivity.
Defined.

(** C10: choosing a strategy leaves the two displayed last moves,
    [yourChoice] and [opponentChoice], as they were. *)
Theorem strategy_change_keeps_last_moves (value : string) (s : state) :
  yourChoice (select_strategy value s) = yourChoice s
  /\ opponentChoice (select_strategy value s) = opponentChoice s.
Proof. split; reflexivity. Qed.

(** *** The payoff matrix *)

Lemma payoff_bounds (a b : move) :
  0 <= fst (payoff a b) <= 5 /\ 0 <= snd (payoff a b) <= 5
  /\ 2 <= fst (payoff a b) + snd (payoff a b) <= 6.
Proof. destruct a, b; cbn; lia. Qed.

(** X12: the payoffs form a prisoner's dilemma: the game is symmetric,
    defecting pays the human strictly more than cooperating whatever the
    opponent does, and yet mutual cooperation pays each player more than
    mutual defection. *)
Theorem payoff_is_a_dilemma :
  (forall a b, payoff a b = (snd (payoff b a), fst (payoff b a)))
  /\ (forall b, fst (payoff cooperate b) < fst (payoff defect b))
  /\ fst (payoff defect defect) < fst (payoff cooperate cooperate)
  /\ snd (payoff defect defect) < snd (payoff cooperate cooperate).
Proof.
  split; [intros [] []; reflexivity|].
  split; [intros []; cbn; lia|].
  split; cbn; lia.
Qed.

(** *** Scores along a session *)

Lemma run_invariant (P : state -> Prop) :
  P initial -> (forall e s, P s -> P (handle e s)) ->
  forall es, P (run es initial).
Proof.
  intros P0 Step es. unfold run.
  assert (G : forall s, P s -> P (fold_left (fun acc e => handle e acc) es s)).
  { induction es as [|e es IH]; intros s Hs; [exact Hs|].
    cbn [fold_left]. apply IH, Step, Hs. }
  apply G, P0.
Qed.

(** X13: in every state the user can reach, each score lies between 0 and
    five times the number of rounds, and the two scores together between
    twice and six times the number of rounds. *)
Theorem scores_bounded_by_rounds (es : list event) :
  0 <= rounds (run es initial)
  /\ 0 <= you (scores (run es initial)) <= 5 * rounds (run es initial)
  /\ 0 <= opponent (scores (run es initial)) <= 5 * rounds (run es initial)
  /\ 2 * rounds (run es initial)
     <= you (scores (run es initial)) + opponent (scores (run es initial))
     <= 6 * rounds (run es initial).
Proof.
  apply (run_invariant
           (fun s => 0 <= rounds s
                     /\ 0 <= you (scores s) <= 5 * rounds s
                     /\ 0 <= opponent (scores s) <= 5 * rounds s
                     /\ 2 * rounds s <= you (scores s) + opponent (scores s)
                        <= 6 * rounds s)).
  - cbn. lia.
  - intros [choice rnd|value] s Hs.
    + cbn [handle]. rewrite click_play_state. cbn [rounds scores you opponent].
      pose proof (payoff_bounds choice (oppMove s rnd)). lia.
    + cbn. lia.
Qed.

Lemma payoff_lead (choice : move) (memory : option move) :
  fst (payoff choice (or_cooperate memory))
  - snd (payoff choice (or_cooperate memory))
  = lead (Some choice) - lead memory.
Proof. destruct choice, memory as [[]|]; reflexivity. Qed.

(** X14: whenever the strategy in force is tit-for-tat, the human is ahead of
    the opponent by exactly 5 points if the human's last move was defect, and
    level with it otherwise: tit-for-tat is never beaten by more than one
    defection. *)
Theorem tit_for_tat_lead (es : list event) :
  opponentStrategy (run es initial) = "tit-for-tat"%string ->
  you (scores (run es initial)) - opponent (scores (run es initial))
  = lead (lastOpponentMove (run es initial)).
Proof.
  apply (run_invariant
           (fun s => opponentStrategy s = "tit-for-tat"%string ->
                     you (scores s) - opponent (scores s)
                     = lead (lastOpponentMove s))).
  - reflexivity.
  - intros [choice rnd|value] s Hs.
    + cbn [handle]. rewrite click_play_state.
      cbn [opponentStrategy scores you opponent lastOpponentMove].
      intros E. specialize (Hs E).
      rewrite (oppMove_tit_for_tat _ _ E).
      pose proof (payoff_lead choice (lastOpponentMove s)). lia.
    + intros _. reflexivity.
Qed.

(** The theorem on the session defect, cooperate, defect from the mount:
    10 points against 5. *)
Lemma tit_for_tat_lead_witness :
  opponentStrategy
    (run [Play defect 0.25; Play cooperate 0.75; Play defect 0.5] initial)
  = "tit-for-tat"%string
  /\ you (scores (run [Play defect 0.25; Play cooperate 0.75; Play defect 0.5]
                      initial))
     - opponent (scores (run [Play defect 0.25; Play cooperate 0.75;
                              Play defect 0.5] initial))
     = lead (lastOpponentMove
               (run [Play defect 0.25; Play cooperate 0.75; Play defect 0.5]
                    initial)).
Proof.
  split; [reflexivity|].
  apply (tit_for_tat_lead [Play defect 0.25; Play cooperate 0.75; Play defect 0.5]).
  reflexivity.
Defined.

(** *** The other strategies *)

(** X15: against the constant defect strategy a round played with cooperate
    adds nothing to the human's score and 5 to the opponent's, and a round
    played with defect adds 1 to each. *)
Theorem payoff_against_defector (rnd : float) (s : state) :
  opponentStrategy s = "defect"%string ->
  scores (click_play cooperate rnd s)
  = {| you := you (scores s) + 0; opponent := opponent (scores s) + 5 |}
  /\ scores (click_play defect rnd s)
     = {| you := you (scores s) + 1; opponent := opponent (scores s) + 1 |}.
Proof.
  intros E. rewrite !click_play_state. cbn [scores].
  unfold oppMove. rewrite E. split; reflexivity.
Qed.

(** The theorem on the state reached by selecting "defect" at the mount. *)
Lemma payoff_against_defector_witness :
  opponentStrategy (select_strategy "defect" initial) = "defect"%string
  /\ scores (click_play cooperate 0.25 (select_strategy "defect" initial))
     = {| you := you (scores (select_strategy "defect" initial)) + 0;
          opponent := opponent (scores (select_strategy "defect" initial)) + 5 |}
  /\ scores (click_play defect 0.25 (select_strategy "defect" initial))
     = {| you := you (scores (select_strategy "defect" initial)) + 1;
          opponent := opponent (scores (select_strategy "defect" initial)) + 1 |}.
Proof.
  split; [reflexivity|].
  apply (payoff_against_defector 0.25 (select_strategy "defect" initial)).
  reflexivity.
Defined.

(** X16: a strategy name that is none of the four listed falls to the
    [default] case: the opponent cooperates, whatever was played before. *)
Theorem unknown_strategy_cooperates (choice : move) (rnd : float) (s : state) :
  ~ In (opponentStrategy s) strategies ->
  opponentChoice (click_play choice rnd s) = Some cooperate.
Proof.
  intros N. rewrite click_play_state. cbn [opponentChoice]. f_equal.
  unfold oppMove, strategies in *. cbn [In] in N.
  repeat match goal with
         | |- context [(opponentStrategy s =? ?k)%string] =>
             destruct (String.eqb_spec (opponentStrategy s) k) as [E|_];
             [exfalso; apply N; rewrite E; tauto|]
         end.
  reflexivity.
Qed.

(** The theorem for a strategy named "grudger", after a defection. *)
Lemma unknown_strategy_cooperates_witness :
  ~ In (opponentStrategy
          (select_strategy "grudger" (click_play defect 0.25 initial)))
       strategies
  /\ opponentChoice
       (click_play defect 0.25
          (select_strategy "grudger" (click_play defect 0.25 initial)))
     = Some cooperate.
Proof.
  assert (N : ~ In (opponentStrategy
                      (select_strategy "grudger" (click_play defect 0.25 initial)))
                   strategies).
  { cbn. intros [H|[H|[H|[H|[]]]]]; discriminate H. }
  split; [exact N|].
  exact (unknown_strategy_cooperates defect 0.25 _ N).
Defined.

(** *** Rounds *)

Lemma rounds_run_app (es es' : list event) (s : state) :
  run (es ++ es') s = run es' (run es s).
Proof. apply fold_left_app. Qed.

(** X17: the round counter is the number of rounds played since the strategy
    was last chosen, and playing never changes the strategy. *)
Theorem rounds_count_plays_since_select
        (pre post : list event) (value : string) (s : state) :
  Forall (fun e => is_play e = true) post ->
  rounds (run (pre ++ Select value :: post) s) = Z.of_nat (List.length post)
  /\ opponentStrategy (run (pre ++ Select value :: post) s) = value.
Proof.
  intros F. rewrite rounds_run_app.
  change (run (Select value :: post) (run pre s))
    with (run post (select_strategy value (run pre s))).
  assert (G : forall t, rounds (run post t)
                        = rounds t + Z.of_nat (List.length post)
                        /\ opponentStrategy (run post t) = opponentStrategy t).
  { unfold run. induction F as [|e post T F IH]; intros t.
    - cbn [fold_left List.length]. split; [lia | reflexivity].
    - destruct e as [choice rnd|v]; [|discriminate].
      cbn [fold_left handle]. destruct (IH (click_play choice rnd t)) as [A B].
      rewrite A, B, click_play_state. cbn [rounds opponentStrategy List.length].
      split; [lia | reflexivity]. }
  destruct (G (select_strategy value (run pre s))) as [A B].
  rewrite A, B. split; reflexivity.
Qed.

(** The theorem on: a round, the choice of "random", two rounds. *)
Lemma rounds_count_plays_since_select_witness :
  Forall (fun e => is_play e = true) [Play defect 0.25; Play cooperate 0.75]
  /\ rounds (run ([Play cooperate 0.5] ++ Select "random"
                    :: [Play defect 0.25; Play cooperate 0.75]) initial) = 2
  /\ opponentStrategy
       (run ([Play cooperate 0.5] ++ Select "random"
               :: [Play defect 0.25; Play cooperate 0.75]) initial)
     = "random"%string.
Proof.
  assert (F : Forall (fun e => is_play e = true)
                     [Play defect 0.25; Play cooperate 0.75])
    by (repeat constructor).
  split; [exact F|].
  exact (rounds_count_plays_since_select
           [Play cooperate 0.5] [Play defect 0.25; Play cooperate 0.75]
           "random" initial F).
Defined.

End GameTheoryFacts.

(** ** The rotation timer *)
Module TopologyFacts.
Import Topology.

Lemma tick_rotation (s : state) :
  rotation (tick s) = Z.rem (rotation s + 1) 360.
Proof. reflexivity. Qed.

Lemma tick_shape (s : state) : shape (tick s) = shape s.
Proof. reflexivity. Qed.

(** On an angle that is not negative, [%] is the mathematical modulo. *)
Lemma tick_mod (s : state) :
  0 <= rotation s -> rotation (tick s) = (rotation s + 1) mod 360.
Proof. intros H. rewrite tick_rotation. apply Z.rem_mod_nonneg; lia. Qed.

Lemma ticks_rotation (n : nat) :
  rotation (ticks n initial) = Z.of_nat n mod 360.
Proof.
  induction n as [|n IH].
  - reflexivity.
  - change (ticks (S n) initial) with (tick (ticks n initial)).
    rewrite tick_mod.
    + rewrite IH, Nat2Z.inj_succ, Zplus_mod_idemp_l. reflexivity.
    + rewrite IH. apply Z.mod_pos_bound. lia.
Qed.

(** C9: from angle 0, after any number of ticks the angle lies in [0, 360),
    and the next tick takes it to the angle plus 1 modulo 360 (so after n
    ticks it is n modulo 360). *)
Theorem rotation_advances_mod_360 (n : nat) :
  0 <= rotation (ticks n initial) < 360
  /\ rotation (tick (ticks n initial))
     = (rotation (ticks n initial) + 1) mod 360
  /\ rotation (ticks n initial) = Z.of_nat n mod 360.
Proof.
  assert (B : 0 <= rotation (ticks n initial) < 360)
    by (rewrite ticks_rotation; apply Z.mod_pos_bound; lia).
  split; [exact B|]. split; [apply tick_mod; lia | apply ticks_rotation].
Qed.

(** *** Ticks and shape buttons *)

Lemma state_eq (s s' : state) :
  shape s = shape s' -> rotation s = rotation s' -> s = s'.
Proof. destruct s, s'. cbn. intros -> ->. reflexivity. Qed.

Lemma ticks_from (n : nat) (s : state) :
  0 <= rotation s < 360 ->
  rotation (ticks n s) = (rotation s + Z.of_nat n) mod 360
  /\ shape (ticks n s) = shape s.
Proof.
  intros H. induction n as [|n [IHr IHs]].
  - cbn [ticks Nat.iter Z.of_nat]. rewrite Z.add_0_r, Z.mod_small by lia.
    split; reflexivity.
  - change (ticks (S n) s) with (tick (ticks n s)).
    rewrite tick_shape, tick_mod.
    + rewrite IHr, Nat2Z.inj_succ, Zplus_mod_idemp_l.
      split; [f_equal; lia | exact IHs].
    + rewrite IHr. apply Z.mod_pos_bound. lia.
Qed.

(** X18: from any angle in [0, 360), 360 ticks bring the component back to
    the very state it was in: the animation has period 360 ticks. *)
Theorem full_turn_is_identity (s : state) :
  0 <= rotation s < 360 -> ticks 360 s = s.
Proof.
  intros H. destruct (ticks_from 360 s H) as [R S].
  apply state_eq; [exact S|].
  rewrite R. change (Z.of_nat 360) with (1 * 360).
  rewrite Z_mod_plus_full. apply Z.mod_small, H.
Qed.

(** The theorem at the klein bottle turned by 359 degrees. *)
Lemma full_turn_is_identity_witness :
  0 <= rotation {| shape := "klein"; rotation := 359 |} < 360
  /\ ticks 360 {| shape := "klein"; rotation := 359 |}
     = {| shape := "klein"; rotation := 359 |}.
Proof.
  assert (H : 0 <= rotation {| shape := "klein"; rotation := 359 |} < 360)
    by (cbn; lia).
  split; [exact H|].
  exact (full_turn_is_identity {| shape := "klein"; rotation := 359 |} H).
Defined.

Lemma run_from (es : list event) :
  forall s, 0 <= rotation s < 360 ->
  rotation (run es s)
  = (rotation s + Z.of_nat (List.length (filter is_tick es))) mod 360
  /\ shape (run es s) = last_click es (shape s).
Proof.
  unfold run. induction es as [|e es IH]; intros s H.
  - cbn [fold_left filter List.length last_click Z.of_nat].
    rewrite Z.add_0_r, Z.mod_small by lia. split; reflexivity.
  - cbn [fold_left]. destruct e as [|b]; cbn [handle filter is_tick last_click].
    + assert (H' : 0 <= rotation (tick s) < 360)
        by (rewrite tick_mod by lia; apply Z.mod_pos_bound; lia).
      destruct (IH (tick s) H') as [R S].
      rewrite R, S, tick_shape, tick_mod by lia. cbn [List.length].
      rewrite Nat2Z.inj_succ, Zplus_mod_idemp_l.
      split; [f_equal; lia | reflexivity].
    + destruct (IH (commit [setShape b] s) H) as [R S].
      rewrite R, S. split; reflexivity.
Qed.

(** X19: however ticks and clicks on the shape buttons interleave, the angle
    is the number of ticks so far modulo 360 and the shape is the one clicked
    last ("torus" before any click): choosing a shape never restarts or
    disturbs the rotation. *)
Theorem shape_clicks_leave_rotation (es : list event) :
  rotation (run es initial)
  = Z.of_nat (List.length (filter is_tick es)) mod 360
  /\ shape (run es initial) = last_click es "torus".
Proof.
  destruct (run_from es initial) as [R S]; [cbn; lia|].
  rewrite R, S. split; reflexivity.
Qed.

Lemma last_click_on_a_button (es : list event) :
  forall d, In d shapes -> Forall on_a_button es ->
            In (last_click es d) shapes.
Proof.
  induction es as [|e es IH]; intros d Hd F; [exact Hd|].
  apply Forall_cons_iff in F. destruct F as [He F].
  destruct e as [|b]; cbn [last_click]; apply IH; assumption.
Qed.

Lemma shape_from_clicks (es : list event) :
  Forall on_a_button es -> In (shape (run es initial)) shapes.
Proof.
  intros F. destruct (run_from es initial) as [_ S]; [cbn; lia|].
  rewrite S. apply last_click_on_a_button; [cbn; tauto | exact F].
Qed.

(** X20: as long as the clicks are on the three buttons, exactly one button
    carries the class "active" in every state, the one of the current shape. *)
Theorem exactly_one_active_button (es : list event) :
  Forall on_a_button es ->
  List.length (filter (String.eqb "active") (button_classes (run es initial)))
  = 1%nat
  /\ button_class (run es initial) (shape (run es initial)) = "active"%string.
Proof.
  intros F. destruct (shape_from_clicks es F) as [E|[E|[E|[]]]];
    unfold button_classes, button_class; rewrite <- E; split; reflexivity.
Qed.

(** The theorem on: a tick, a click on "klein", a tick. *)
Lemma exactly_one_active_button_witness :
  Forall on_a_button [Tick; Click "klein"; Tick]
  /\ List.length
       (filter (String.eqb "active")
               (button_classes (run [Tick; Click "klein"; Tick] initial)))
     = 1%nat
  /\ button_class (run [Tick; Click "klein"; Tick] initial)
                  (shape (run [Tick; Click "klein"; Tick] initial))
     = "active"%string.
Proof.
  assert (F : Forall on_a_button [Tick; Click "klein"; Tick])
    by (repeat constructor; cbn; tauto).
  split; [exact F|].
  exact (exactly_one_active_button [Tick; Click "klein"; Tick] F).
Defined.

End TopologyFacts.

(** ** The page header *)
Module AppFacts.
Import App.

Lemma scroll_last (positions : list float) :
  forall (scrolled : bool) (p : float),
    scroll (positions ++ [p]) scrolled = (50 <? p)%float.
Proof.
  unfold scroll. intros scrolled p. rewrite fold_left_app. reflexivity.
Qed.

(** X21: after any number of scroll events the header carries the class
    "scrolled" exactly when the position read by the last event is above 50;
    before the first event it carries none. *)
Theorem nav_class_follows_last_scroll (positions : list float) :
  nav_class (scroll positions initial)
  = if (50 <? last positions 0)%float then "scrolled"%string else ""%string.
Proof.
  destruct positions as [|p0 ps]; [vm_compute; reflexivity|].
  destruct (exists_last (l := p0 :: ps)) as (ps' & p & E); [discriminate|].
  rewrite E, scroll_last, last_last. reflexivity.
Qed.

End AppFacts.
